(** * villus: the subscription forwarding plugin

    A shallow embedding of [packages/villus/src/handleSubscriptions.ts]
    together with the parts of the specification that surround it
    (operation fingerprinting, pausing of subscriptions).

    The plugin is effectful JavaScript: it reads properties of an operation
    object it only holds a reference to, builds a new object with the spread
    syntax, calls two foreign functions (the subscription forwarder and the
    context's [useResult]) and throws.  The embedding therefore threads an
    explicit state (a heap of objects and the log of foreign calls) through
    a small state-and-exception monad. *)

From stdpp Require Import gmap strings list sorting.
From stdpp Require Import pretty.
From Stdlib Require Import ZArith Ascii.

Open Scope string_scope.

(** ** JavaScript values, objects and the heap *)

Module JS.

Definition loc := positive.

(** Primitive values and references to heap-allocated objects.  Numbers are
    only carried around by the plugin (the operation's [key]), never computed
    with, so integers stand for them. *)
Inductive value : Type :=
| VUndefined
| VNull
| VBool (b : bool)
| VNum (n : Z)
| VStr (s : string)
| VRef (l : loc).

#[global] Instance value_eq_dec : EqDecision value.
Proof. solve_decision. Defined.

(** An object is its map of own enumerable properties; the heap maps
    references to objects. *)
Abbreviation obj := (gmap string value).
Abbreviation heap := (gmap loc obj).

(** ToBoolean: what [if (!v)] looks at. *)
Definition to_boolean (v : value) : bool :=
  match v with
  | VUndefined | VNull => false
  | VBool b => b
  | VNum n => negb (n =? 0)%Z
  | VStr s => negb (String.eqb s "")
  | VRef _ => true
  end.

(** [a === b] and [a !== b]. *)
Definition strict_eq (a b : value) : bool := bool_decide (a = b).
Definition strict_neq (a b : value) : bool := negb (strict_eq a b).

(** [o.k] on an object: a missing property reads as [undefined]. *)
Definition prop (o : obj) (k : string) : value := default VUndefined (o !! k).

(** What can be thrown: [new Error(message)] by the plugin itself, or any
    value by foreign code. *)
Inductive exn : Type :=
| Error (message : string)
| Foreign (v : value).

#[global] Instance exn_eq_dec : EqDecision exn.
Proof. solve_decision. Defined.

(** A statement or call either completes with a value or throws. *)
Inductive outcome (A : Type) : Type :=
| Normal (a : A)
| Throw (e : exn).
Arguments Normal {A} a.
Arguments Throw {A} e.

(** Foreign functions are given by their effect on the heap: the forwarder
    takes the operation and returns the observable, [useResult] takes the
    result and the terminate flag. *)
Definition SubscriptionForwarder := value -> heap -> outcome value * heap.
Definition UseResult := value -> bool -> heap -> outcome unit * heap.

(** The log of foreign calls: the arguments and the heap the callee starts in. *)
Inductive call : Type :=
| CallForward (arg : value) (h : heap)
| CallUseResult (result : value) (terminate : bool) (h : heap).

Record state : Type := mkState { st_heap : heap; st_calls : list call }.

(** *** The monad *)

Definition M (A : Type) : Type := state -> outcome A * state.

Definition ret {A} (a : A) : M A := fun st => (Normal a, st).

Definition throw {A} (e : exn) : M A := fun st => (Throw e, st).

Definition bind {A B} (m : M A) (k : A -> M B) : M B :=
  fun st =>
    match m st with
    | (Normal a, st') => k a st'
    | (Throw e, st') => (Throw e, st')
    end.

Declare Scope js_scope.
Delimit Scope js_scope with js.
Notation "x <- m ;; k" := (bind m (fun x => k))
  (at level 100, m at next level, right associativity) : js_scope.
Notation "m ;;; k" := (bind m (fun _ => k))
  (at level 100, right associativity) : js_scope.

(** [ref.k]: read a property through a reference.  A reference always
    designates a live object; the lookup is totalised with the empty object. *)
Definition get_prop (l : loc) (k : string) : M value :=
  fun st => (Normal (prop (default ∅ (st_heap st !! l)) k), st).

(** [{ ...ref, k: v }]: a shallow copy of the object with one property
    replaced, allocated at a fresh location. *)
Definition spread_with (l : loc) (k : string) (v : value) : M value :=
  fun st =>
    let h := st_heap st in
    let l' := fresh (dom h) in
    (Normal (VRef l'),
     mkState (<[l' := <[k := v]> (default ∅ (h !! l))]> h) (st_calls st)).

(** [forward(arg)]: logged, then run on the heap. *)
Definition call_forward (f : SubscriptionForwarder) (arg : value) : M value :=
  fun st =>
    let h := st_heap st in
    let '(r, h') := f arg h in
    (r, mkState h' (st_calls st ++ [CallForward arg h])).

(** [useResult(result, terminate)]: logged, then run on the heap. *)
Definition call_useResult (f : UseResult) (result : value) (terminate : bool)
  : M unit :=
  fun st =>
    let h := st_heap st in
    let '(r, h') := f result terminate h in
    (r, mkState h' (st_calls st ++ [CallUseResult result terminate h])).

End JS.

Import JS.
Open Scope js_scope.

(** ** handleSubscriptions.ts *)

(** The part of the plugin context the handler destructures:
    [{ operation, useResult }]. *)
Record ClientPluginContext : Type := mkContext {
  operation : loc;
  useResult : UseResult
}.

Definition ClientPlugin := ClientPluginContext -> M unit.

Definition no_forwarder_error : exn := Error "No subscription forwarder was set.".
Definition missing_query_error : exn := Error "A query must be provided.".

Section HandleSubscriptions.

(** [normalizeQuery] is imported from [shared/src/utils]; the plugin only
    relies on it being a pure function of the query. *)
Variable normalizeQuery : value -> value.

Definition subscriptionsHandlerPlugin (forward : option SubscriptionForwarder)
  : ClientPlugin :=
  fun ctx =>
    type <- get_prop (operation ctx) "type";;
    if strict_neq type (VStr "subscription") then ret tt
    else
      match forward with
      | None => throw no_forwarder_error
      | Some fwd =>
          query <- get_prop (operation ctx) "query";;
          let normalizedQuery := normalizeQuery query in
          if negb (to_boolean normalizedQuery) then throw missing_query_error
          else
            arg <- spread_with (operation ctx) "query" normalizedQuery;;
            result <- call_forward fwd arg;;
            call_useResult (useResult ctx) result true
      end.

Definition handleSubscriptions (forwarder : option SubscriptionForwarder)
  : M ClientPlugin :=
  let forward := forwarder in
  ret (subscriptionsHandlerPlugin forward).

End HandleSubscriptions.

(** Foreign code that leaves the object at [l] alone: a forwarder unless it
    is handed [l] itself, a [useResult] callback always. *)
Definition forwarder_preserves (l : loc) (fwd : SubscriptionForwarder)
  : Prop :=
  forall arg h, arg <> VRef l -> (fwd arg h).2 !! l = h !! l.

Definition useResult_preserves (l : loc) (ur : UseResult) : Prop :=
  forall result terminate h, (ur result terminate h).2 !! l = h !! l.

(** *** Sample inputs *)

Module Sample.

(** A normaliser that keeps query strings and rejects anything else. *)
Definition keep_strings (q : value) : value :=
  match q with
  | VStr s => VStr s
  | _ => VNull
  end.

Definition subscription_op : obj :=
  <["type" := VStr "subscription"]>
    (<["query" := VStr "subscription { newMessages { id } }"]>
       (<["variables" := VRef 7%positive]> (<["key" := VNum 42]> ∅))).

Definition empty_subscription_op : obj :=
  <["type" := VStr "subscription"]> (<["query" := VStr ""]> ∅).

Definition query_op : obj :=
  <["type" := VStr "query"]> (<["query" := VStr "{ posts { id } }"]> ∅).

Definition heap_of (o : obj) : heap := {[ 1%positive := o ]}.

(** A forwarder that marks the object it is handed and returns the stream
    object at location 9. *)
Definition marking_forwarder : SubscriptionForwarder :=
  fun arg h =>
    (Normal (VRef 9%positive),
     match arg with
     | VRef a => alter (insert "seen" (VBool true)) a h
     | _ => h
     end).

(** A [useResult] that has no effect on the heap. *)
Definition silent_useResult : UseResult := fun _ _ h => (Normal tt, h).

Definition ctx : ClientPluginContext := mkContext 1%positive silent_useResult.

Definition initial (o : obj) : state := mkState (heap_of o) [].

(** Where the handler allocates the copy of [o] when started in
    [initial o], the copy itself, and the heap the forwarder is entered with. *)
Definition copy_loc (o : obj) : loc := fresh (dom (heap_of o)).

Definition copy (o : obj) : obj :=
  <["query" := keep_strings (prop o "query")]> o.

Definition forward_heap (o : obj) : heap :=
  <[copy_loc o := copy o]> (heap_of o).

End Sample.

(** ** Operation fingerprints

    The code that derives an operation's key lives outside
    [handleSubscriptions.ts]; it is modelled from section 4.1 of the
    specification. *)

Module Fingerprint.

#[local] Set Warnings "-register-all".

(** Modelled from the spec: the values a variables mapping may hold.  An
    object keeps its entries in insertion order, as the "ordered mapping
    name to value" of section 3. *)
Inductive json : Type :=
| JNull
| JBool (b : bool)
| JNum (n : Z)
| JStr (s : string)
| JArr (items : list json)
| JObj (fields : list (string * json)).

(** Modelled from the spec: a string literal of the serialisation. *)
Definition quote (s : string) : string :=
  String "034"%char (s +:+ String "034"%char "").

(** Modelled from the spec: "lexicographically sorted keys", the order on
    the entries of an object whose values are already serialised. *)
Definition field_le (a b : string * string) : Prop := String.le a.1 b.1.

#[global] Instance field_le_dec : RelDecision field_le.
Proof. intros a b. unfold field_le. apply _. Defined.

(** Modelled from the spec: one serialised entry, [key:value]. *)
Definition render_field (f : string * string) : string :=
  quote f.1 +:+ ":" +:+ f.2.

(** Modelled from the spec: the pieces of an array or object, separated. *)
Definition join (sep : string) (parts : list string) : string :=
  match parts with
  | [] => ""
  | p :: ps => fold_left (fun acc q => acc +:+ sep +:+ q) ps p
  end.

(** Modelled from the spec: "deterministically serialize variables with
    lexicographically sorted keys".  Arrays keep their order; the entries of
    an object, at every depth, are emitted by increasing key. *)
Fixpoint stringify (v : json) : string :=
  match v with
  | JNull => "null"
  | JBool b => if b then "true" else "false"
  | JNum n => pretty n
  | JStr s => quote s
  | JArr items => "[" +:+ join "," (map stringify items) +:+ "]"
  | JObj fields =>
      "{" +:+ join ","
                (map render_field
                   (merge_sort field_le
                      (map (fun kv => match kv with
                                      | (k, x) => (k, stringify x)
                                      end) fields)))
          +:+ "}"
  end.

(** Modelled from the spec: an entry of an object with its value
    serialised, as the object case of [stringify] sorts them. *)
Definition ser (kv : string * json) : string * string :=
  match kv with
  | (k, x) => (k, stringify x)
  end.

(** Modelled from the spec: reading an entry of an object by name. *)
Fixpoint lookup_field (k : string) (fields : list (string * json))
  : option json :=
  match fields with
  | [] => None
  | (k', x) :: rest => if String.eqb k k' then Some x else lookup_field k rest
  end.

(** Modelled from the spec: "deep-equal", position by position, on the
    items of two arrays. *)
Fixpoint all2 {A B : Type} (f : A -> B -> bool) (xs : list A) (ys : list B)
  : bool :=
  match xs, ys with
  | [], [] => true
  | x :: xs', y :: ys' => f x y && all2 f xs' ys'
  | _, _ => false
  end.

(** Modelled from the spec: "deep-equal variables".  Two objects are
    deep-equal when they have as many entries and every entry of the first is
    found under the same name in the second, with a deep-equal value; arrays
    are compared position by position.  The order of entries plays no role. *)
Fixpoint deep_equal (a b : json) : bool :=
  match a, b with
  | JNull, JNull => true
  | JBool x, JBool y => bool_decide (x = y)
  | JNum x, JNum y => bool_decide (x = y)
  | JStr x, JStr y => bool_decide (x = y)
  | JArr xs, JArr ys => all2 deep_equal xs ys
  | JObj fs, JObj gs =>
      bool_decide (length fs = length gs) &&
      forallb (fun kv => match kv with
                         | (k, x) =>
                             match lookup_field k gs with
                             | Some y => deep_equal x y
                             | None => false
                             end
                         end) fs
  | _, _ => false
  end.

(** Modelled from the spec: a mapping holds each name at most once, at every
    depth (what distinguishes a mapping from a list of pairs). *)
Fixpoint well_formed (v : json) : bool :=
  match v with
  | JArr items => forallb well_formed items
  | JObj fields =>
      bool_decide (NoDup (map fst fields)) &&
      forallb (fun kv => well_formed (snd kv)) fields
  | _ => true
  end.

(** Modelled from the spec: the two fields of an Operation that its key is
    "a pure function of": the query as given and the variables mapping. *)
Record Operation : Type := mkOperation {
  query : string;
  variables : list (string * json)
}.

Section Key.

(** Modelled from the spec: query normalisation is "a pure utility" and any
    strong hash is acceptable; both are left open. *)
Variable normalize : string -> string.
Variable hash : string -> N.

(** Modelled from the spec: "serialize variables ..., concatenate with
    normalized query text, hash". *)
Definition fingerprint (op : Operation) : N :=
  hash (normalize (query op) +:+ stringify (JObj (variables op))).

End Key.

End Fingerprint.

(** ** Pausing a subscription

    [useSubscription] is only documented (API page and guide); the consumer
    side of a subscription is modelled from section 4.5 of the specification
    and from the guide's note on pausing. *)

Module Subscription.

Section Consumer.

(** Modelled from the spec: the aggregated value, the messages of the
    forwarder's stream, the "absence-of-data sentinel" and the caller's pure
    reducer. *)
Variables (Data Msg : Type).
Variable absent : Data.
Variable reduce : Data -> Msg -> Data.

(** Modelled from the spec: what the caller observes ([data], [paused]) and
    whether the underlying stream is still subscribed. *)
Record consumer : Type := mkConsumer {
  data : Data;
  paused : bool;
  subscribed : bool
}.

(** Modelled from the spec: what can happen to a running subscription. *)
Inductive event : Type :=
| Next (m : Msg)
| Pause
| Resume
| Unsubscribe.

(** Modelled from the spec: a subscription starts subscribed, not paused,
    with no data. *)
Definition start : consumer := mkConsumer absent false true.

(** Modelled from the spec: "pausing is implemented by the caller discarding
    incoming values, not by unsubscribing"; the reducer "folds each incoming
    message with the previous aggregated value"; unsubscribing "must prevent
    further reducer invocations". *)
Definition step (c : consumer) (e : event) : consumer :=
  match e with
  | Next m =>
      if subscribed c && negb (paused c)
      then mkConsumer (reduce (data c) m) (paused c) (subscribed c)
      else c
  | Pause => mkConsumer (data c) true (subscribed c)
  | Resume => mkConsumer (data c) false (subscribed c)
  | Unsubscribe => mkConsumer (data c) (paused c) false
  end.

(** Modelled from the spec: events are handled "in arrival order". *)
Definition run (c : consumer) (events : list event) : consumer :=
  fold_left step events c.

(** Modelled from the spec: an event other than an explicit unsubscribe. *)
Definition keeps_stream (e : event) : bool :=
  match e with
  | Unsubscribe => false
  | _ => true
  end.

End Consumer.

Arguments mkConsumer {Data} data paused subscribed.
Arguments data {Data} c.
Arguments paused {Data} c.
Arguments subscribed {Data} c.
Arguments Next {Msg} m.
Arguments Pause {Msg}.
Arguments Resume {Msg}.
Arguments Unsubscribe {Msg}.
Arguments start {Data} absent.
Arguments step {Data Msg} reduce c e.
Arguments run {Data Msg} reduce c events.
Arguments keeps_stream {Msg} e.

End Subscription.

(** *** Sample operations *)

Module FingerprintSample.

Import Fingerprint.

(** A normaliser that drops the spaces of a query. *)
Fixpoint strip_spaces (s : string) : string :=
  match s with
  | EmptyString => EmptyString
  | String c rest =>
      if Ascii.eqb c " "%char then strip_spaces rest
      else String c (strip_spaces rest)
  end.

(** A polynomial hash of a string. *)
Fixpoint char_sum (s : string) : N :=
  match s with
  | EmptyString => 0%N
  | String c rest => (N_of_ascii c + 33 * char_sum rest)%N
  end.

(** Two operations that differ in the spacing of the query and in the
    order of the variables, at both depths. *)
Definition nested : json :=
  JObj [("y", JStr "s"); ("x", JArr [JNull; JBool true])].
Definition nested' : json :=
  JObj [("x", JArr [JNull; JBool true]); ("y", JStr "s")].

Definition op1 : Operation :=
  mkOperation "query Q { a }" [("id", JNum 1); ("filter", nested)].
Definition op2 : Operation :=
  mkOperation "query Q {a}" [("filter", nested'); ("id", JNum 1)].

End FingerprintSample.

(** *** A sample consumer *)

Module SubscriptionSample.

Import Subscription.

(** The reducer of the guide: the messages received so far. *)
Definition collect (old : list nat) (m : nat) : list nat := old ++ [m].

(** A consumer that received one message and was then paused. *)
Definition paused_consumer : consumer (list nat) :=
  run collect (start []) [Next 1; Pause].

End SubscriptionSample.

(** ** The guide's reducer

    The subscriptions guide and the [useSubscription] reference give the
    reducer [reduceMessages] (there [messagesReducer]). *)

Module Guide.

(** [response.data] of the guide's subscription: an object holding the
    message under [newMessages]. *)
Record MessageData (Msg : Type) : Type := mkData { newMessages : Msg }.
Arguments mkData {Msg} newMessages.
Arguments newMessages {Msg} m.

(** What the reducer reads of a response: [data] is an object or null,
    [errors] an array or absent.  Objects and arrays are truthy, an empty
    array too. *)
Record Response (Msg Err : Type) : Type := mkResponse {
  data : option (MessageData Msg);
  errors : option (list Err)
}.
Arguments mkResponse {Msg Err} data errors.
Arguments data {Msg Err} r.
Arguments errors {Msg Err} r.

(** ToBoolean of a value that is an object or array when present. *)
Definition truthy {A : Type} (x : option A) : bool :=
  match x with
  | Some _ => true
  | None => false
  end.

(** [reduceMessages(oldValue, response)]; [oldValue] is null or the array
    returned by the previous call. *)
Definition reduceMessages {Msg Err : Type}
  (oldValue : option (list Msg)) (response : Response Msg Err) : list Msg :=
  let oldValue := match oldValue with Some l => l | None => [] end in
  if negb (truthy (data response)) || truthy (errors response)
  then oldValue
  else
    match data response with
    | Some d => oldValue ++ [newMessages d]
    | None => oldValue
    end.

(** The aggregated value after a run of responses: "initially, we have null
    for the initial value", then each response is passed to the reducer with
    the previous value. *)
Definition aggregate {Msg Err : Type} (responses : list (Response Msg Err))
  : option (list Msg) :=
  fold_left (fun old r => Some (reduceMessages old r)) responses None.

End Guide.

(** *** More sample forwarders *)

Module ForwarderSample.

(** A forwarder that throws instead of returning an observable. *)
Definition throwing_forwarder : SubscriptionForwarder :=
  fun _ h => (Throw (Foreign (VStr "socket closed")), h).

(** A forwarder that runs [arg[k][p] = x] on the operation it is handed
    before returning the stream object at location 9. *)
Definition writing_forwarder (k p : string) (x : value)
  : SubscriptionForwarder :=
  fun arg h =>
    (Normal (VRef 9%positive),
     match arg with
     | VRef a =>
         match default ∅ (h !! a) !! k with
         | Some (VRef v) => alter (insert p x) v h
         | _ => h
         end
     | _ => h
     end).

(** A [useResult] that throws. *)
Definition throwing_useResult : UseResult :=
  fun _ _ h => (Throw (Foreign (VStr "already resolved")), h).

(** The variables object of [Sample.subscription_op], and a state that
    holds it. *)
Definition variables_obj : obj := {[ "id" := VNum 1 ]}.

Definition with_variables : state :=
  mkState (<[7%positive := variables_obj]>
             (Sample.heap_of Sample.subscription_op)) [].

(** A second operation with the type and query of [Sample.subscription_op]
    and nothing else in common. *)
Definition tagged_op : obj :=
  <["type" := VStr "subscription"]>
    (<["query" := VStr "subscription { newMessages { id } }"]>
       (<["tags" := VRef 8%positive]> (<["key" := VNum 7]> ∅))).

End ForwarderSample.

(** * Properties of the subscription plugin *)

Section HandlerFacts.

#[local] Open Scope list_scope.

Variable normalizeQuery : value -> value.

Abbreviation plugin := (subscriptionsHandlerPlugin normalizeQuery).
Abbreviation handle := (handleSubscriptions normalizeQuery).

(** The object handed to the forwarder for the operation [o]. *)
Abbreviation copy_of o := (<["query" := normalizeQuery (prop o "query")]> o).

Implicit Types (o : obj) (st : state) (ctx : ClientPluginContext)
  (fwd : SubscriptionForwarder) (forward : option SubscriptionForwarder).

Lemma strict_neq_same (v : value) : strict_neq v v = false.
Proof. unfold strict_neq, strict_eq. by rewrite bool_decide_eq_true_2. Qed.

Lemma strict_neq_other (v w : value) : v <> w -> strict_neq v w = true.
Proof.
  intros Hne. unfold strict_neq, strict_eq. by rewrite bool_decide_eq_false_2.
Qed.

(** *** The four paths through the handler *)

Lemma plugin_skip forward ctx st o :
  st_heap st !! operation ctx = Some o ->
  prop o "type" <> VStr "subscription" ->
  plugin forward ctx st = (Normal tt, st).
Proof.
  intros Hop Hty.
  unfold subscriptionsHandlerPlugin, bind, get_prop; cbn.
  rewrite Hop; cbn.
  by rewrite strict_neq_other.
Qed.

Lemma plugin_no_forwarder ctx st o :
  st_heap st !! operation ctx = Some o ->
  prop o "type" = VStr "subscription" ->
  plugin None ctx st = (Throw no_forwarder_error, st).
Proof.
  intros Hop Hty.
  unfold subscriptionsHandlerPlugin, bind, get_prop; cbn.
  rewrite Hop; cbn. by rewrite Hty, strict_neq_same.
Qed.

Lemma plugin_no_query fwd ctx st o :
  st_heap st !! operation ctx = Some o ->
  prop o "type" = VStr "subscription" ->
  to_boolean (normalizeQuery (prop o "query")) = false ->
  plugin (Some fwd) ctx st = (Throw missing_query_error, st).
Proof.
  intros Hop Hty Hq.
  unfold subscriptionsHandlerPlugin, bind, get_prop; cbn.
  rewrite Hop; cbn. rewrite Hty, strict_neq_same; cbn.
  rewrite Hop; cbn. by rewrite Hq.
Qed.

Lemma plugin_forward fwd ctx st o :
  st_heap st !! operation ctx = Some o ->
  prop o "type" = VStr "subscription" ->
  to_boolean (normalizeQuery (prop o "query")) = true ->
  let h := st_heap st in
  let l' := fresh (dom h) in
  let h1 := <[l' := copy_of o]> h in
  plugin (Some fwd) ctx st =
    match fwd (VRef l') h1 with
    | (Normal stream, h2) =>
        let '(r, h3) := useResult ctx stream true h2 in
        (r, mkState h3 (st_calls st ++ [CallForward (VRef l') h1;
                                        CallUseResult stream true h2]))
    | (Throw e, h2) =>
        (Throw e, mkState h2 (st_calls st ++ [CallForward (VRef l') h1]))
    end.
Proof.
  intros Hop Hty Hq h l' h1.
  unfold subscriptionsHandlerPlugin, bind, get_prop, spread_with,
    call_forward, call_useResult; cbn.
  rewrite Hop; cbn. rewrite Hty, strict_neq_same; cbn.
  rewrite Hop; cbn. rewrite Hq; cbn. rewrite Hop; cbn.
  fold h. fold l'. fold h1.
  destruct (fwd (VRef l') h1) as [[stream | e] h2]; cbn.
  - destruct (useResult ctx stream true h2) as [r h3]; cbn.
    rewrite <- app_assoc. reflexivity.
  - reflexivity.
Qed.

(** On the forwarding path the first new entry of the log is the call of
    the forwarder, on a reference to the copy. *)
Lemma plugin_forward_log fwd ctx st o :
  st_heap st !! operation ctx = Some o ->
  prop o "type" = VStr "subscription" ->
  to_boolean (normalizeQuery (prop o "query")) = true ->
  exists rest : list call,
    st_calls (plugin (Some fwd) ctx st).2 =
      st_calls st ++
        CallForward (VRef (fresh (dom (st_heap st))))
          (<[fresh (dom (st_heap st)) := copy_of o]> (st_heap st)) :: rest.
Proof.
  intros Hop Hty Hq.
  rewrite (plugin_forward fwd ctx st o Hop Hty Hq); cbn zeta.
  destruct (fwd _ _) as [[stream | e] h2].
  - destruct (useResult ctx stream true h2) as [r h3]. by eexists.
  - by eexists.
Qed.

(** A handler run that left the state as it was made no call. *)
Ltac no_new_calls :=
  cbn; split; [done |];
  exists []; split; [by rewrite app_nil_r |];
  intros ? ? Hin; by apply elem_of_nil in Hin.

Lemma fresh_loc_ne (h : heap) (l : loc) o :
  h !! l = Some o -> fresh (dom h) <> l.
Proof.
  intros Hl Heq.
  apply (is_fresh (dom h)). rewrite Heq.
  apply elem_of_dom. eauto.
Qed.

(** *** Claims about the handler *)

(** C1, amended. The plugin is the chain terminal for subscriptions: for
    a subscription operation, a registered forwarder that returns a stream
    and a query that is truthy after normalisation, the foreign calls of the
    handler are exactly one call of the forwarder followed by one call of
    [useResult], which is handed the stream the forwarder returned together
    with the terminate flag [true].  The context offers no way to continue
    the chain and the handler makes no other call; its own outcome is that
    of [useResult]. *)
Theorem subscription_plugin_is_terminal fwd ctx st o stream h2 :
  st_heap st !! operation ctx = Some o ->
  prop o "type" = VStr "subscription" ->
  to_boolean (normalizeQuery (prop o "query")) = true ->
  let arg := VRef (fresh (dom (st_heap st))) in
  let h1 := <[fresh (dom (st_heap st)) := copy_of o]> (st_heap st) in
  fwd arg h1 = (Normal stream, h2) ->
  st_calls (plugin (Some fwd) ctx st).2 =
    st_calls st ++ [CallForward arg h1; CallUseResult stream true h2] /\
  (plugin (Some fwd) ctx st).1 = (useResult ctx stream true h2).1.
Proof.
  intros Hop Hty Hq arg h1 Hfwd.
  rewrite (plugin_forward fwd ctx st o Hop Hty Hq); cbn zeta.
  fold h1. fold arg. rewrite Hfwd.
  by destruct (useResult ctx stream true h2) as [r h3].
Qed.

(** C2. Building the plugin without a forwarder returns the plugin and
    raises nothing; dispatching a subscription through that plugin throws
    the error 'No subscription forwarder was set.' at once, before any
    foreign call and with the state untouched. *)
Theorem missing_forwarder_fails_at_dispatch st0 ctx st o :
  st_heap st !! operation ctx = Some o ->
  prop o "type" = VStr "subscription" ->
  exists p : ClientPlugin,
    handle None st0 = (Normal p, st0) /\
    p ctx st = (Throw no_forwarder_error, st).
Proof.
  intros Hop Hty.
  exists (plugin None). split; [reflexivity |].
  by apply plugin_no_forwarder with o.
Qed.

(** C3, amended. With a registered forwarder, a subscription operation
    whose query is falsy after normalisation makes the dispatch throw
    'A query must be provided.' synchronously; the forwarder is not called
    and no result is supplied (the state, call log included, is the one the
    handler started in). *)
Theorem empty_query_fails_validation fwd ctx st o :
  st_heap st !! operation ctx = Some o ->
  prop o "type" = VStr "subscription" ->
  to_boolean (normalizeQuery (prop o "query")) = false ->
  plugin (Some fwd) ctx st = (Throw missing_query_error, st) /\
  st_calls (plugin (Some fwd) ctx st).2 = st_calls st.
Proof.
  intros Hop Hty Hq.
  by rewrite (plugin_no_query fwd ctx st o Hop Hty Hq).
Qed.

(** C4. The forwarder is called with a reference to an object whose
    [query] property is the normalised query and whose every other property
    is the one of the dispatched operation. *)
Theorem forwarder_receives_normalized_operation fwd ctx st o :
  st_heap st !! operation ctx = Some o ->
  prop o "type" = VStr "subscription" ->
  to_boolean (normalizeQuery (prop o "query")) = true ->
  exists (l' : loc) (h1 : heap) (o' : obj) (rest : list call),
    st_calls (plugin (Some fwd) ctx st).2 =
      st_calls st ++ CallForward (VRef l') h1 :: rest /\
    h1 !! l' = Some o' /\
    o' !! "query" = Some (normalizeQuery (prop o "query")) /\
    forall k : string, k <> "query" -> o' !! k = o !! k.
Proof.
  intros Hop Hty Hq.
  destruct (plugin_forward_log fwd ctx st o Hop Hty Hq) as [rest Hlog].
  eexists _, _, (copy_of o), rest. split; [exact Hlog |].
  split; [apply lookup_insert_eq |].
  split; [apply lookup_insert_eq |].
  intros k Hk. by apply lookup_insert_ne.
Qed.

(** C7. The handler does not write to the dispatched operation.  Whatever
    the path taken, when the foreign code leaves the operation alone (the
    forwarder unless handed the operation itself, [useResult] always), the
    operation object is the same after the handler as before; and every
    call of the forwarder made by the handler is handed a reference that was
    not allocated before, to a copy carrying the normalised query, in a
    heap where the operation is still as it was. *)
Theorem operation_not_mutated forward ctx st o :
  st_heap st !! operation ctx = Some o ->
  (forall fwd, forward = Some fwd -> forwarder_preserves (operation ctx) fwd) ->
  useResult_preserves (operation ctx) (useResult ctx) ->
  st_heap (plugin forward ctx st).2 !! operation ctx = Some o /\
  exists new : list call,
    st_calls (plugin forward ctx st).2 = st_calls st ++ new /\
    forall arg h1, CallForward arg h1 ∈ new ->
      exists l' : loc,
        arg = VRef l' /\ (l' ∉ dom (st_heap st)) /\ l' <> operation ctx /\
        h1 !! l' = Some (copy_of o) /\
        h1 !! operation ctx = Some o.
Proof.
  intros Hop Hfwd Hres.
  destruct (decide (prop o "type" = VStr "subscription")) as [Hty | Hty].
  2: { rewrite (plugin_skip forward ctx st o Hop Hty). no_new_calls. }
  destruct forward as [fwd |].
  2: { rewrite (plugin_no_forwarder ctx st o Hop Hty). no_new_calls. }
  destruct (to_boolean (normalizeQuery (prop o "query"))) eqn:Hq.
  2: { rewrite (plugin_no_query fwd ctx st o Hop Hty Hq). no_new_calls. }
  rewrite (plugin_forward fwd ctx st o Hop Hty Hq); cbn zeta.
  set (l' := fresh (dom (st_heap st))).
  set (h1 := <[l' := copy_of o]> (st_heap st)).
  pose proof (fresh_loc_ne _ _ _ Hop) as Hne. fold l' in Hne.
  assert (Hfresh : l' ∉ dom (st_heap st)) by apply is_fresh.
  assert (Hkeep : h1 !! operation ctx = Some o)
    by (unfold h1; by rewrite lookup_insert_ne).
  assert (Harg : VRef l' <> VRef (operation ctx)) by congruence.
  pose proof (Hfwd fwd eq_refl (VRef l') h1 Harg) as Hframe.
  assert (Hlog : forall arg h0 tl, CallForward arg h0 ∈ CallForward (VRef l') h1 :: tl ->
            (forall a h, CallForward a h ∉ tl) ->
            exists l0 : loc, arg = VRef l0 /\ (l0 ∉ dom (st_heap st)) /\
              l0 <> operation ctx /\ h0 !! l0 = Some (copy_of o) /\
              h0 !! operation ctx = Some o).
  { intros arg h0 tl Hin Htl. apply elem_of_cons in Hin as [Heq | Hin].
    - injection Heq as -> ->. exists l'.
      repeat split; [done | done | apply lookup_insert_eq | done].
    - by apply Htl in Hin. }
  destruct (fwd (VRef l') h1) as [[stream | e] h2] eqn:Hcall; cbn in Hframe.
  - pose proof (Hres stream true h2) as Hframe'.
    destruct (useResult ctx stream true h2) as [r h3]; cbn in *.
    split; [by rewrite Hframe', Hframe |].
    eexists. split; [reflexivity |].
    intros arg h0 Hin. apply (Hlog _ _ _ Hin).
    intros a h Hbad. apply list_elem_of_singleton in Hbad. discriminate.
  - cbn. split; [by rewrite Hframe |].
    eexists. split; [reflexivity |].
    intros arg h0 Hin. apply (Hlog _ _ _ Hin).
    intros a h Hbad. by apply elem_of_nil in Hbad.
Qed.

(** C8. An operation that is not a subscription makes the handler return
    at once: nothing is thrown, the forwarder and [useResult] are not called
    and the state is untouched, whether or not a forwarder was given and
    whatever the operation's query. *)
Theorem non_subscription_passes_through forward ctx st o :
  st_heap st !! operation ctx = Some o ->
  prop o "type" <> VStr "subscription" ->
  plugin forward ctx st = (Normal tt, st).
Proof. intros Hop Hty. by apply plugin_skip with o. Qed.

(** C9. When no forwarder was given and the query is falsy after
    normalisation, the error thrown is the missing-forwarder one: the
    forwarder is checked before the query is looked at. *)
Theorem missing_forwarder_reported_first ctx st o :
  st_heap st !! operation ctx = Some o ->
  prop o "type" = VStr "subscription" ->
  to_boolean (normalizeQuery (prop o "query")) = false ->
  plugin None ctx st = (Throw (Error "No subscription forwarder was set."), st).
Proof. intros Hop Hty _. by apply plugin_no_forwarder with o. Qed.

(** C10, amended. For a fixed forwarder, two invocations on operations
    with the same properties (in any two states) agree: both return at once
    without effect (the operation is not a subscription), or both throw the
    same error without effect, or both call the forwarder, each with a
    reference to an object with the same properties. *)
Theorem handler_deterministic forward ctx1 ctx2 st1 st2 o :
  st_heap st1 !! operation ctx1 = Some o ->
  st_heap st2 !! operation ctx2 = Some o ->
  (prop o "type" <> VStr "subscription" /\
   plugin forward ctx1 st1 = (Normal tt, st1) /\
   plugin forward ctx2 st2 = (Normal tt, st2)) \/
  (exists e : exn,
     plugin forward ctx1 st1 = (Throw e, st1) /\
     plugin forward ctx2 st2 = (Throw e, st2)) \/
  (exists (fwd : SubscriptionForwarder) (l1 l2 : loc) (h1 h2 : heap) (o' : obj)
          (rest1 rest2 : list call),
     forward = Some fwd /\
     st_calls (plugin forward ctx1 st1).2 =
       st_calls st1 ++ CallForward (VRef l1) h1 :: rest1 /\
     st_calls (plugin forward ctx2 st2).2 =
       st_calls st2 ++ CallForward (VRef l2) h2 :: rest2 /\
     h1 !! l1 = Some o' /\ h2 !! l2 = Some o').
Proof.
  intros Hop1 Hop2.
  destruct (decide (prop o "type" = VStr "subscription")) as [Hty | Hty].
  2: { left. split; [done |]. split; by apply plugin_skip with o. }
  right. destruct forward as [fwd |].
  2: { left. exists no_forwarder_error.
       split; by apply plugin_no_forwarder with o. }
  destruct (to_boolean (normalizeQuery (prop o "query"))) eqn:Hq.
  2: { left. exists missing_query_error.
       split; by apply plugin_no_query with o. }
  right.
  destruct (plugin_forward_log fwd ctx1 st1 o Hop1 Hty Hq) as [rest1 Hlog1].
  destruct (plugin_forward_log fwd ctx2 st2 o Hop2 Hty Hq) as [rest2 Hlog2].
  eexists fwd, _, _, _, _, (copy_of o), rest1, rest2.
  split; [done |]. split; [exact Hlog1 |]. split; [exact Hlog2 |].
  split; apply lookup_insert_eq.
Qed.

End HandlerFacts.

(** *** The claims at sample inputs *)

Section HandlerSamples.

#[local] Open Scope list_scope.

Import Sample.

Abbreviation sample_plugin := (subscriptionsHandlerPlugin keep_strings).

Lemma marking_forwarder_preserves (l : loc) :
  forwarder_preserves l marking_forwarder.
Proof.
  intros arg h Hne. unfold marking_forwarder.
  destruct arg as [| | b | n | s | a]; cbn; try done.
  apply lookup_alter_ne. congruence.
Qed.

Lemma silent_useResult_preserves (l : loc) :
  useResult_preserves l silent_useResult.
Proof. by intros result terminate h. Qed.

Lemma subscription_plugin_is_terminal_witness :
  (st_heap (initial subscription_op) !! operation ctx = Some subscription_op /\
   prop subscription_op "type" = VStr "subscription" /\
   to_boolean (keep_strings (prop subscription_op "query")) = true /\
   marking_forwarder (VRef (copy_loc subscription_op))
     (forward_heap subscription_op) =
     (Normal (VRef 9%positive),
      alter (insert "seen" (VBool true)) (copy_loc subscription_op)
        (forward_heap subscription_op))) /\
  (st_calls (sample_plugin (Some marking_forwarder) ctx
               (initial subscription_op)).2 =
     [CallForward (VRef (copy_loc subscription_op))
        (forward_heap subscription_op);
      CallUseResult (VRef 9%positive) true
        (alter (insert "seen" (VBool true)) (copy_loc subscription_op)
           (forward_heap subscription_op))] /\
   (sample_plugin (Some marking_forwarder) ctx (initial subscription_op)).1 =
     Normal tt).
Proof.
  split.
  - repeat split; vm_compute; reflexivity.
  - apply (subscription_plugin_is_terminal keep_strings marking_forwarder ctx
             (initial subscription_op) subscription_op (VRef 9%positive)
             (alter (insert "seen" (VBool true)) (copy_loc subscription_op)
                (forward_heap subscription_op)));
      vm_compute; reflexivity.
Defined.

(** C1 as stated fails when the forwarder throws: for a subscription with
    a registered forwarder and a truthy normalised query the dispatch ends
    in the forwarder's throw and [useResult] is never called, so no result
    is supplied. *)
Lemma throwing_forwarder_supplies_nothing :
  st_heap (initial subscription_op) !! operation ctx = Some subscription_op /\
  prop subscription_op "type" = VStr "subscription" /\
  to_boolean (keep_strings (prop subscription_op "query")) = true /\
  (sample_plugin (Some ForwarderSample.throwing_forwarder) ctx
     (initial subscription_op)).1 = Throw (Foreign (VStr "socket closed")) /\
  ~ (exists result terminate h,
       CallUseResult result terminate h ∈
         st_calls (sample_plugin (Some ForwarderSample.throwing_forwarder) ctx
                     (initial subscription_op)).2).
Proof.
  assert (Hlog : st_calls (sample_plugin
                             (Some ForwarderSample.throwing_forwarder) ctx
                             (initial subscription_op)).2 =
                 [CallForward (VRef (copy_loc subscription_op))
                    (forward_heap subscription_op)])
    by (vm_compute; reflexivity).
  repeat split; try (vm_compute; reflexivity).
  intros (result & terminate & h & Hin). rewrite Hlog in Hin.
  apply list_elem_of_singleton in Hin. discriminate.
Qed.

Lemma missing_forwarder_fails_at_dispatch_witness :
  (st_heap (initial subscription_op) !! operation ctx = Some subscription_op /\
   prop subscription_op "type" = VStr "subscription") /\
  exists p : ClientPlugin,
    handleSubscriptions keep_strings None (initial query_op) =
      (Normal p, initial query_op) /\
    p ctx (initial subscription_op) =
      (Throw no_forwarder_error, initial subscription_op).
Proof.
  split.
  - split; vm_compute; reflexivity.
  - apply (missing_forwarder_fails_at_dispatch keep_strings (initial query_op)
             ctx (initial subscription_op) subscription_op);
      vm_compute; reflexivity.
Defined.

(** C3 as stated fails when no forwarder was given: for a subscription
    whose query normalises to the empty string the dispatch throws the
    missing-forwarder error, not 'A query must be provided.'. *)
Lemma empty_query_without_forwarder :
  st_heap (initial empty_subscription_op) !! operation ctx =
    Some empty_subscription_op /\
  prop empty_subscription_op "type" = VStr "subscription" /\
  to_boolean (keep_strings (prop empty_subscription_op "query")) = false /\
  (sample_plugin None ctx (initial empty_subscription_op)).1 =
    Throw no_forwarder_error /\
  (sample_plugin None ctx (initial empty_subscription_op)).1 <>
    Throw missing_query_error.
Proof.
  repeat split; try (vm_compute; reflexivity).
  vm_compute. discriminate.
Qed.

Lemma empty_query_fails_validation_witness :
  (st_heap (initial empty_subscription_op) !! operation ctx =
     Some empty_subscription_op /\
   prop empty_subscription_op "type" = VStr "subscription" /\
   to_boolean (keep_strings (prop empty_subscription_op "query")) = false) /\
  (sample_plugin (Some marking_forwarder) ctx (initial empty_subscription_op) =
     (Throw missing_query_error, initial empty_subscription_op) /\
   st_calls (sample_plugin (Some marking_forwarder) ctx
               (initial empty_subscription_op)).2 = []).
Proof.
  split.
  - repeat split; vm_compute; reflexivity.
  - apply (empty_query_fails_validation keep_strings marking_forwarder ctx
             (initial empty_subscription_op) empty_subscription_op);
      vm_compute; reflexivity.
Defined.

Lemma forwarder_receives_normalized_operation_witness :
  (st_heap (initial subscription_op) !! operation ctx = Some subscription_op /\
   prop subscription_op "type" = VStr "subscription" /\
   to_boolean (keep_strings (prop subscription_op "query")) = true) /\
  exists (l' : loc) (h1 : heap) (o' : obj) (rest : list call),
    st_calls (sample_plugin (Some marking_forwarder) ctx
                (initial subscription_op)).2 =
      st_calls (initial subscription_op) ++ CallForward (VRef l') h1 :: rest /\
    h1 !! l' = Some o' /\
    o' !! "query" = Some (keep_strings (prop subscription_op "query")) /\
    forall k : string, k <> "query" -> o' !! k = subscription_op !! k.
Proof.
  split.
  - repeat split; vm_compute; reflexivity.
  - apply (forwarder_receives_normalized_operation keep_strings
             marking_forwarder ctx (initial subscription_op) subscription_op);
      vm_compute; reflexivity.
Defined.

Lemma operation_not_mutated_witness :
  (st_heap (initial subscription_op) !! operation ctx = Some subscription_op /\
   (forall fwd, Some marking_forwarder = Some fwd ->
      forwarder_preserves (operation ctx) fwd) /\
   useResult_preserves (operation ctx) (useResult ctx)) /\
  (st_heap (sample_plugin (Some marking_forwarder) ctx
              (initial subscription_op)).2 !! operation ctx =
     Some subscription_op /\
   exists new : list call,
     st_calls (sample_plugin (Some marking_forwarder) ctx
                 (initial subscription_op)).2 =
       st_calls (initial subscription_op) ++ new /\
     forall arg h1, CallForward arg h1 ∈ new ->
       exists l' : loc,
         arg = VRef l' /\ (l' ∉ dom (st_heap (initial subscription_op))) /\
         l' <> operation ctx /\
         h1 !! l' = Some (copy subscription_op) /\
         h1 !! operation ctx = Some subscription_op).
Proof.
  assert (H1 : st_heap (initial subscription_op) !! operation ctx =
               Some subscription_op) by (vm_compute; reflexivity).
  assert (H2 : forall fwd, Some marking_forwarder = Some fwd ->
               forwarder_preserves (operation ctx) fwd)
    by (intros fwd [= <-]; apply marking_forwarder_preserves).
  assert (H3 : useResult_preserves (operation ctx) (useResult ctx))
    by apply silent_useResult_preserves.
  split; [by repeat split |].
  exact (operation_not_mutated keep_strings (Some marking_forwarder) ctx
           (initial subscription_op) subscription_op H1 H2 H3).
Defined.

Lemma non_subscription_passes_through_witness :
  (st_heap (initial query_op) !! operation ctx = Some query_op /\
   prop query_op "type" <> VStr "subscription") /\
  sample_plugin None ctx (initial query_op) = (Normal tt, initial query_op).
Proof.
  assert (H1 : st_heap (initial query_op) !! operation ctx = Some query_op)
    by (vm_compute; reflexivity).
  assert (H2 : prop query_op "type" <> VStr "subscription")
    by (vm_compute; discriminate).
  split; [by split |].
  exact (non_subscription_passes_through keep_strings None ctx
           (initial query_op) query_op H1 H2).
Defined.

Lemma missing_forwarder_reported_first_witness :
  (st_heap (initial empty_subscription_op) !! operation ctx =
     Some empty_subscription_op /\
   prop empty_subscription_op "type" = VStr "subscription" /\
   to_boolean (keep_strings (prop empty_subscription_op "query")) = false) /\
  sample_plugin None ctx (initial empty_subscription_op) =
    (Throw (Error "No subscription forwarder was set."),
     initial empty_subscription_op).
Proof.
  split.
  - repeat split; vm_compute; reflexivity.
  - apply (missing_forwarder_reported_first keep_strings ctx
             (initial empty_subscription_op) empty_subscription_op);
      vm_compute; reflexivity.
Defined.

(** C10 as stated fails on an operation that is not a subscription: the
    handler neither throws nor calls the forwarder. *)
Lemma query_operation_neither_throws_nor_forwards :
  st_heap (initial query_op) !! operation ctx = Some query_op /\
  ~ ((exists e : exn,
        (sample_plugin (Some marking_forwarder) ctx (initial query_op)).1 =
          Throw e) \/
     (exists arg h,
        CallForward arg h ∈
          st_calls (sample_plugin (Some marking_forwarder) ctx
                      (initial query_op)).2)).
Proof.
  split; [vm_compute; reflexivity |].
  intros [[e He] | (arg & h & Hin)].
  - vm_compute in He. discriminate.
  - vm_compute in Hin. by apply elem_of_nil in Hin.
Qed.

Lemma handler_deterministic_witness :
  (st_heap (initial subscription_op) !! operation ctx = Some subscription_op /\
   st_heap (mkState (<[5%positive := query_op]> (heap_of subscription_op)) [])
     !! operation ctx = Some subscription_op) /\
  exists (fwd : SubscriptionForwarder) (l1 l2 : loc) (h1 h2 : heap) (o' : obj)
         (rest1 rest2 : list call),
    Some marking_forwarder = Some fwd /\
    st_calls (sample_plugin (Some marking_forwarder) ctx
                (initial subscription_op)).2 =
      CallForward (VRef l1) h1 :: rest1 /\
    st_calls (sample_plugin (Some marking_forwarder) ctx
                (mkState (<[5%positive := query_op]> (heap_of subscription_op))
                   [])).2 =
      CallForward (VRef l2) h2 :: rest2 /\
    h1 !! l1 = Some o' /\ h2 !! l2 = Some o'.
Proof.
  assert (H1 : st_heap (initial subscription_op) !! operation ctx =
               Some subscription_op) by (vm_compute; reflexivity).
  assert (H2 : st_heap (mkState (<[5%positive := query_op]>
                                   (heap_of subscription_op)) [])
                 !! operation ctx = Some subscription_op)
    by (vm_compute; reflexivity).
  split; [by split |].
  destruct (handler_deterministic keep_strings (Some marking_forwarder) ctx ctx
              _ _ subscription_op H1 H2)
    as [(Hty & _) | [(e & He & _) | Hfw]].
  - exfalso. apply Hty. vm_compute. reflexivity.
  - exfalso. vm_compute in He. discriminate.
  - exact Hfw.
Defined.

End HandlerSamples.

(** * Properties of the fingerprint *)

Module FingerprintFacts.

Import Fingerprint.

#[local] Open Scope list_scope.

Section JsonInduction.

Variable P : json -> Prop.
Hypothesis Hnull : P JNull.
Hypothesis Hbool : forall b, P (JBool b).
Hypothesis Hnum : forall n, P (JNum n).
Hypothesis Hstr : forall s, P (JStr s).
Hypothesis Harr : forall items, Forall P items -> P (JArr items).
Hypothesis Hobj :
  forall fields, Forall (fun kv => P kv.2) fields -> P (JObj fields).

Lemma json_nested_ind (v : json) : P v.
Proof.
  revert v. fix IH 1. intros [| b | n | s | items | fields].
  - exact Hnull.
  - apply Hbool.
  - apply Hnum.
  - apply Hstr.
  - apply Harr. induction items as [| x l IHl]; constructor.
    + apply IH.
    + apply IHl.
  - apply Hobj. induction fields as [| [k x] l IHl]; constructor.
    + apply IH.
    + apply IHl.
Qed.

End JsonInduction.

Lemma stringify_obj fields :
  stringify (JObj fields) =
    "{" +:+ join "," (map render_field (merge_sort field_le (map ser fields)))
        +:+ "}".
Proof. reflexivity. Qed.

#[local] Instance field_le_trans : Transitive field_le.
Proof.
  intros a b c Hab Hbc. unfold field_le in *.
  by transitivity b.1.
Qed.

#[local] Instance field_le_total : Total field_le.
Proof. intros a b. unfold field_le. apply String.le_total. Qed.

Lemma lookup_field_elem k fields y :
  lookup_field k fields = Some y -> (k, y) ∈ fields.
Proof.
  induction fields as [| [k' x] rest IH]; cbn; [done |].
  destruct (String.eqb k k') eqn:Hk.
  - apply String.eqb_eq in Hk as ->. intros [= ->]. apply elem_of_cons. by left.
  - intros H. apply elem_of_cons. right. by apply IH.
Qed.

Lemma unique_key {B : Type} (l : list (string * B)) (a b : string * B) :
  NoDup (map fst l) -> a ∈ l -> b ∈ l -> a.1 = b.1 -> a = b.
Proof.
  induction l as [| c l IH]; cbn; intros Hnd Ha Hb Hk.
  - by apply elem_of_nil in Ha.
  - apply NoDup_cons in Hnd as [Hc Hnd].
    apply elem_of_cons in Ha as [-> | Ha];
      apply elem_of_cons in Hb as [-> | Hb]; [done | | | by apply IH].
    + exfalso. apply Hc. rewrite Hk.
      apply (list_elem_of_fmap_2 fst) in Hb. exact Hb.
    + exfalso. apply Hc. rewrite <- Hk.
      apply (list_elem_of_fmap_2 fst) in Ha. exact Ha.
Qed.

Lemma sort_fields_permutation (l1 l2 : list (string * string)) :
  NoDup (map fst l2) -> l1 ≡ₚ l2 ->
  merge_sort field_le l1 = merge_sort field_le l2.
Proof.
  intros Hnd Hperm.
  apply (StronglySorted_unique_strong field_le).
  - intros x1 x2 H1 H2 H12 H21.
    apply (unique_key l2); [done | | |].
    + rewrite <- Hperm. by rewrite <- (merge_sort_Permutation field_le l1).
    + by rewrite <- (merge_sort_Permutation field_le l2).
    + unfold field_le in *. by apply (anti_symm String.le).
  - apply StronglySorted_merge_sort; apply _.
  - apply StronglySorted_merge_sort; apply _.
  - by rewrite !merge_sort_Permutation.
Qed.


Lemma all2_Forall2 {A B : Type} (f : A -> B -> bool) xs ys :
  all2 f xs ys = true -> Forall2 (fun x y => f x y = true) xs ys.
Proof.
  revert ys. induction xs as [| x xs IH]; intros [| y ys]; cbn; try done.
  intros [Hxy Hrest]%andb_true_iff. constructor; [done | by apply IH].
Qed.

Lemma forallb_elem {A : Type} (f : A -> bool) (l : list A) (x : A) :
  forallb f l = true -> x ∈ l -> f x = true.
Proof.
  intros Hall Hin. apply list_elem_of_In in Hin.
  by apply (proj1 (forallb_forall f l) Hall).
Qed.

Lemma deep_equal_stringify (a : json) :
  forall b : json,
    well_formed a = true -> well_formed b = true ->
    deep_equal a b = true -> stringify a = stringify b.
Proof.
  induction a as [| x | x | x | xs IH | fs IH] using json_nested_ind;
    intros [| y | y | y | ys | gs] Hwa Hwb Heq; try discriminate Heq.
  - done.
  - cbn in Heq. by apply bool_decide_eq_true in Heq as ->.
  - cbn in Heq. by apply bool_decide_eq_true in Heq as ->.
  - cbn in Heq. by apply bool_decide_eq_true in Heq as ->.
  - assert (Hmap : map stringify xs = map stringify ys).
    { cbn in Hwa, Hwb, Heq. apply all2_Forall2 in Heq.
      induction Heq as [| x y xs ys Hxy _ IHrest]; [done |].
      cbn in Hwa, Hwb.
      apply andb_true_iff in Hwa as [Hx Hxs].
      apply andb_true_iff in Hwb as [Hy Hys].
      apply Forall_cons in IH as [IHx IHxs].
      cbn. f_equal; [by apply IHx | by apply IHrest]. }
    cbn. by rewrite Hmap.
  - rewrite !stringify_obj.
    enough (Hsort : merge_sort field_le (map ser fs) =
                    merge_sort field_le (map ser gs)) by by rewrite Hsort.
    cbn in Hwa, Hwb, Heq.
    apply andb_true_iff in Hwa as [Hnda Hwa].
    apply andb_true_iff in Hwb as [Hndb Hwb].
    apply andb_true_iff in Heq as [Hlen Heq].
    apply bool_decide_eq_true in Hnda, Hndb, Hlen.
    apply sort_fields_permutation.
    { replace (map fst (map ser gs)) with (map fst gs); [done |].
      rewrite map_map. apply map_ext. by intros []. }
    apply submseteq_length_Permutation.
    2: { rewrite !length_map. lia. }
    apply NoDup_submseteq.
    { apply (NoDup_fmap_1 fst).
      replace (fst <$> map ser fs) with (map fst fs); [done |].
      change (fst <$> map ser fs) with (map fst (map ser fs)).
      rewrite map_map. apply map_ext. by intros []. }
    intros e He.
    change (map ser fs) with (ser <$> fs) in He.
    apply list_elem_of_fmap in He as ([k x] & -> & Hin).
    pose proof (forallb_elem _ _ _ Heq Hin) as Hkx. cbn in Hkx.
    destruct (lookup_field k gs) as [y |] eqn:Hlk; [| done].
    apply lookup_field_elem in Hlk.
    rewrite Forall_forall in IH.
    pose proof (IH _ Hin y) as Hs. cbn in Hs.
    change (map ser gs) with (ser <$> gs).
    apply list_elem_of_fmap. exists (k, y). split; [| done].
    cbn. f_equal. apply Hs; [| | done].
    + apply (forallb_elem _ _ _ Hwa Hin).
    + apply (forallb_elem _ _ _ Hwb Hlk).
Qed.

Section FingerprintClaim.

Variable normalize : string -> string.
Variable hash : string -> N.

(** C5. Two operations whose queries have the same normalised text and
    whose variables are deep-equal mappings have the same fingerprint,
    whatever the order in which the entries of the variables, at any depth,
    were inserted. *)
Theorem fingerprint_order_independent (op1 op2 : Operation) :
  normalize (query op1) = normalize (query op2) ->
  well_formed (JObj (variables op1)) = true ->
  well_formed (JObj (variables op2)) = true ->
  deep_equal (JObj (variables op1)) (JObj (variables op2)) = true ->
  fingerprint normalize hash op1 = fingerprint normalize hash op2.
Proof.
  intros Hq Hw1 Hw2 Heq. unfold fingerprint.
  by rewrite Hq, (deep_equal_stringify _ _ Hw1 Hw2 Heq).
Qed.

End FingerprintClaim.

Import FingerprintSample.

Lemma fingerprint_order_independent_witness :
  (strip_spaces (query op1) = strip_spaces (query op2) /\
   well_formed (JObj (variables op1)) = true /\
   well_formed (JObj (variables op2)) = true /\
   deep_equal (JObj (variables op1)) (JObj (variables op2)) = true /\
   variables op1 <> variables op2) /\
  fingerprint strip_spaces char_sum op1 = fingerprint strip_spaces char_sum op2.
Proof.
  split.
  - repeat split; try (vm_compute; reflexivity). vm_compute. discriminate.
  - apply (fingerprint_order_independent strip_spaces char_sum op1 op2);
      vm_compute; reflexivity.
Defined.

End FingerprintFacts.

(** * Properties of pausing *)

Module SubscriptionFacts.

Import Subscription.

#[local] Open Scope list_scope.

Section PauseFacts.

Context {Data Msg : Type}.
Variable reduce : Data -> Msg -> Data.

Implicit Types (c : consumer Data) (msgs : list Msg)
  (events : list (event Msg)).

Lemma run_cons c (e : event Msg) events :
  run reduce c (e :: events) =
  run reduce (step reduce c e) events.
Proof. reflexivity. Qed.

(** A paused consumer drops every message. *)
Lemma paused_drops_messages msgs c :
  paused c = true -> run reduce c (map Next msgs) = c.
Proof.
  intros Hp. induction msgs as [| m msgs IH]; [done |].
  cbn [map]. rewrite run_cons. cbn [step].
  by rewrite Hp, andb_false_r.
Qed.

(** A subscribed consumer that is not paused folds the messages, in order. *)
Lemma running_folds_messages msgs c :
  subscribed c = true -> paused c = false ->
  data (run reduce c (map Next msgs)) =
    fold_left reduce msgs (data c).
Proof.
  revert c. induction msgs as [| m msgs IH]; intros c Hs Hp; [done |].
  cbn [map]. rewrite run_cons. cbn [step fold_left].
  rewrite Hs, Hp. cbn [andb negb]. by rewrite IH.
Qed.

(** Only an explicit unsubscribe ends the stream. *)
Lemma stream_kept events c :
  forallb keeps_stream events = true ->
  subscribed (run reduce c events) = subscribed c.
Proof.
  revert c. induction events as [| e events IH]; intros c Hall; [done |].
  cbn [forallb] in Hall. apply andb_true_iff in Hall as [He Hall].
  rewrite run_cons, (IH _ Hall).
  destruct e as [m | | |]; cbn in *; [| done | done | done].
  by destruct (subscribed c && negb (paused c)).
Qed.

(** C6. For a subscribed consumer that is paused: the messages that arrive
    leave the aggregated value as it was; once resumed, the messages that
    arrive are folded into it by the reducer, in order; and no sequence of
    messages, pauses and resumes ends the subscription to the stream. *)
Theorem pause_semantics c msgs events :
  subscribed c = true ->
  paused c = true ->
  forallb keeps_stream events = true ->
  data (run reduce c (map Next msgs)) = data c /\
  data (run reduce c (Resume :: map Next msgs)) =
    fold_left reduce msgs (data c) /\
  subscribed (run reduce c events) = true.
Proof.
  intros Hs Hp Hev. repeat split.
  - by rewrite paused_drops_messages.
  - rewrite run_cons. by rewrite running_folds_messages.
  - by rewrite stream_kept.
Qed.

End PauseFacts.

Import SubscriptionSample.

Lemma pause_semantics_witness :
  (subscribed paused_consumer = true /\
   paused paused_consumer = true /\
   forallb keeps_stream [Next 2; Resume; Next 3; Pause] = true) /\
  (data (run collect paused_consumer (map Next [2; 3])) = [1] /\
   data (run collect paused_consumer (Resume :: map Next [2; 3])) =
     [1; 2; 3] /\
   subscribed (run collect paused_consumer
                   [Next 2; Resume; Next 3; Pause]) = true).
Proof.
  split.
  - repeat split.
  - apply (pause_semantics collect paused_consumer [2; 3]
             [Next 2; Resume; Next 3; Pause]); reflexivity.
Defined.

End SubscriptionFacts.

(** * Further properties of the subscription plugin *)

Section HandlerExtras.

#[local] Open Scope list_scope.

Variable normalizeQuery : value -> value.

Abbreviation run_plugin := (subscriptionsHandlerPlugin normalizeQuery).
Abbreviation spread o := (<["query" := normalizeQuery (prop o "query")]> o).

Implicit Types (o : obj) (st : state) (ctx : ClientPluginContext)
  (fwd : SubscriptionForwarder) (forward : option SubscriptionForwarder).

(** X1. When the forwarder throws, the handler throws the same value:
    [useResult] is not called, no result is supplied, and the log ends with
    the call of the forwarder. *)
Theorem forwarder_throw_skips_useResult fwd ctx st o e h2 :
  st_heap st !! operation ctx = Some o ->
  prop o "type" = VStr "subscription" ->
  to_boolean (normalizeQuery (prop o "query")) = true ->
  fwd (VRef (fresh (dom (st_heap st))))
      (<[fresh (dom (st_heap st)) := spread o]> (st_heap st)) = (Throw e, h2) ->
  run_plugin (Some fwd) ctx st =
    (Throw e,
     mkState h2
       (st_calls st ++
          [CallForward (VRef (fresh (dom (st_heap st))))
             (<[fresh (dom (st_heap st)) := spread o]> (st_heap st))])).
Proof.
  intros Hop Hty Hq Hthrow.
  rewrite (plugin_forward normalizeQuery fwd ctx st o Hop Hty Hq); cbn zeta.
  by rewrite Hthrow.
Qed.

(** X2. The calls of one dispatch follow a fixed protocol, whatever the
    operation and the forwarder: the log only grows, by nothing, by one
    call of the forwarder that threw, or by one call of the forwarder that
    returned followed by one call of [useResult] with the value the forwarder
    returned and the terminate flag set. *)
Theorem call_protocol forward ctx st o :
  st_heap st !! operation ctx = Some o ->
  exists new : list call,
    st_calls (run_plugin forward ctx st).2 = st_calls st ++ new /\
    (new = [] \/
     (exists fwd arg h e h2,
        forward = Some fwd /\ fwd arg h = (Throw e, h2) /\
        new = [CallForward arg h]) \/
     (exists fwd arg h r h2,
        forward = Some fwd /\ fwd arg h = (Normal r, h2) /\
        new = [CallForward arg h; CallUseResult r true h2])).
Proof.
  intros Hop.
  destruct (decide (prop o "type" = VStr "subscription")) as [Hty | Hty].
  2: { rewrite (plugin_skip normalizeQuery forward ctx st o Hop Hty).
       exists []. split; [by rewrite app_nil_r | by left]. }
  destruct forward as [fwd |].
  2: { rewrite (plugin_no_forwarder normalizeQuery ctx st o Hop Hty).
       exists []. split; [by rewrite app_nil_r | by left]. }
  destruct (to_boolean (normalizeQuery (prop o "query"))) eqn:Hq.
  2: { rewrite (plugin_no_query normalizeQuery fwd ctx st o Hop Hty Hq).
       exists []. split; [by rewrite app_nil_r | by left]. }
  rewrite (plugin_forward normalizeQuery fwd ctx st o Hop Hty Hq); cbn zeta.
  destruct (fwd _ _) as [[r | e] h2] eqn:Hcall.
  - destruct (useResult ctx r true h2) as [u h3]. cbn.
    eexists. split; [reflexivity |]. right; right. by eexists fwd, _, _, r, h2.
  - cbn. eexists. split; [reflexivity |]. right; left.
    by eexists fwd, _, _, e, h2.
Qed.

(** X3. What a dispatch can throw: the missing-forwarder error, no
    forwarder having been given, or the missing-query error, a forwarder
    having been given and the normalised query being falsy, in both cases
    with the state untouched; or else a value thrown by the forwarder or by
    [useResult]. *)
Theorem thrown_errors_classified forward ctx st o e st' :
  st_heap st !! operation ctx = Some o ->
  run_plugin forward ctx st = (Throw e, st') ->
  (forward = None /\ e = no_forwarder_error /\ st' = st) \/
  (is_Some forward /\ e = missing_query_error /\ st' = st /\
   to_boolean (normalizeQuery (prop o "query")) = false) \/
  (exists fwd arg h, forward = Some fwd /\ (fwd arg h).1 = Throw e) \/
  (exists r h, (useResult ctx r true h).1 = Throw e).
Proof.
  intros Hop Hrun.
  destruct (decide (prop o "type" = VStr "subscription")) as [Hty | Hty].
  2: { by rewrite (plugin_skip normalizeQuery forward ctx st o Hop Hty) in Hrun. }
  destruct forward as [fwd |].
  2: { rewrite (plugin_no_forwarder normalizeQuery ctx st o Hop Hty) in Hrun.
       left. by injection Hrun as <- <-. }
  destruct (to_boolean (normalizeQuery (prop o "query"))) eqn:Hq.
  2: { rewrite (plugin_no_query normalizeQuery fwd ctx st o Hop Hty Hq) in Hrun.
       right; left. injection Hrun as <- <-. by repeat split. }
  rewrite (plugin_forward normalizeQuery fwd ctx st o Hop Hty Hq) in Hrun;
    cbn zeta in Hrun.
  destruct (fwd _ _) as [[r | e'] h2] eqn:Hcall.
  - destruct (useResult ctx r true h2) as [u h3] eqn:Hres.
    injection Hrun as -> <-. do 3 right. exists r, h2. by rewrite Hres.
  - injection Hrun as -> <-. right; right; left.
    eexists fwd, _, _. split; [done |]. by rewrite Hcall.
Qed.

(** X4. The only heap write of the handler is one allocation.  When the
    forwarder is entered, the heap is the initial heap with one more
    object, at a location that was free: every object that existed is as it
    was, and the new object has the operation's properties plus [query]. *)
Theorem handler_allocates_one_object fwd ctx st o :
  st_heap st !! operation ctx = Some o ->
  prop o "type" = VStr "subscription" ->
  to_boolean (normalizeQuery (prop o "query")) = true ->
  exists (l' : loc) (h1 : heap) (o' : obj) (rest : list call),
    st_calls (run_plugin (Some fwd) ctx st).2 =
      st_calls st ++ CallForward (VRef l') h1 :: rest /\
    (l' ∉ dom (st_heap st)) /\
    dom h1 = {[ l' ]} ∪ dom (st_heap st) /\
    (forall l0 : loc, l0 <> l' -> h1 !! l0 = st_heap st !! l0) /\
    h1 !! l' = Some o' /\
    dom o' = {[ "query" ]} ∪ dom o.
Proof.
  intros Hop Hty Hq.
  destruct (plugin_forward_log normalizeQuery fwd ctx st o Hop Hty Hq)
    as [rest Hlog].
  eexists _, _, (spread o), rest. split; [exact Hlog |].
  split; [apply is_fresh |].
  split; [apply dom_insert_L |].
  split; [intros l0 Hl0; by apply lookup_insert_ne |].
  split; [apply lookup_insert_eq | apply dom_insert_L].
Qed.

(** X5. The copy is shallow: an object the operation refers to, such as
    its variables, is shared with the copy handed to the forwarder.  A
    forwarder that writes [arg.variables[p] = x] therefore changes the
    variables object of the dispatched operation, whose own properties stay
    as they were. *)
Theorem shallow_copy_shares_variables ctx st o (v : loc) (ov : obj)
    (p : string) (x : value) :
  st_heap st !! operation ctx = Some o ->
  prop o "type" = VStr "subscription" ->
  to_boolean (normalizeQuery (prop o "query")) = true ->
  o !! "variables" = Some (VRef v) ->
  st_heap st !! v = Some ov ->
  v <> operation ctx ->
  (forall l, useResult_preserves l (useResult ctx)) ->
  let st' :=
    (run_plugin (Some (ForwarderSample.writing_forwarder "variables" p x))
       ctx st).2 in
  st_heap st' !! v = Some (<[p := x]> ov) /\
  st_heap st' !! operation ctx = Some o.
Proof.
  intros Hop Hty Hq Hvar Hv Hne Hres st'. subst st'.
  rewrite (plugin_forward normalizeQuery _ ctx st o Hop Hty Hq); cbn zeta.
  set (l' := fresh (dom (st_heap st))).
  set (h1 := <[l' := spread o]> (st_heap st)).
  assert (Hl'v : l' <> v) by (by apply fresh_loc_ne with ov).
  assert (Hl'op : l' <> operation ctx) by (by apply fresh_loc_ne with o).
  unfold ForwarderSample.writing_forwarder.
  assert (Hk : default ∅ (h1 !! l') !! "variables" = Some (VRef v)).
  { unfold h1. rewrite lookup_insert_eq. cbn.
    by rewrite lookup_insert_ne. }
  rewrite Hk.
  pose proof (Hres v (VRef 9%positive) true (alter (insert p x) v h1)) as Hv'.
  pose proof (Hres (operation ctx) (VRef 9%positive) true
                (alter (insert p x) v h1)) as Hop'.
  destruct (useResult ctx _ true _) as [u h3]; cbn in *.
  rewrite Hv', Hop'. split.
  - rewrite lookup_alter_eq. unfold h1.
    rewrite lookup_insert_ne by done. by rewrite Hv.
  - rewrite lookup_alter_ne by done. unfold h1.
    by rewrite lookup_insert_ne.
Qed.

(** X6. Which path a dispatch takes depends on the operation's [type]
    and [query] only.  Two operations that agree on these two properties,
    and differ in any other way, are both passed through, or both rejected
    with the same error, or both forwarded, each as a copy of itself with
    the same [query]. *)
Theorem path_depends_on_type_and_query forward ctx1 ctx2 st1 st2 o1 o2 :
  st_heap st1 !! operation ctx1 = Some o1 ->
  st_heap st2 !! operation ctx2 = Some o2 ->
  prop o1 "type" = prop o2 "type" ->
  prop o1 "query" = prop o2 "query" ->
  (run_plugin forward ctx1 st1 = (Normal tt, st1) /\
   run_plugin forward ctx2 st2 = (Normal tt, st2)) \/
  (exists e : exn,
     run_plugin forward ctx1 st1 = (Throw e, st1) /\
     run_plugin forward ctx2 st2 = (Throw e, st2)) \/
  (exists (l1 l2 : loc) (h1 h2 : heap) (o1' o2' : obj)
          (rest1 rest2 : list call),
     st_calls (run_plugin forward ctx1 st1).2 =
       st_calls st1 ++ CallForward (VRef l1) h1 :: rest1 /\
     st_calls (run_plugin forward ctx2 st2).2 =
       st_calls st2 ++ CallForward (VRef l2) h2 :: rest2 /\
     h1 !! l1 = Some o1' /\ h2 !! l2 = Some o2' /\
     o1' !! "query" = o2' !! "query" /\
     forall k : string, k <> "query" ->
       o1' !! k = o1 !! k /\ o2' !! k = o2 !! k).
Proof.
  intros Hop1 Hop2 Hty Hqq.
  destruct (decide (prop o1 "type" = VStr "subscription")) as [Hty1 | Hty1].
  2: { left. split; [by apply plugin_skip with o1 |].
       apply plugin_skip with o2; [done | by rewrite <- Hty]. }
  assert (Hty2 : prop o2 "type" = VStr "subscription") by by rewrite <- Hty.
  right. destruct forward as [fwd |].
  2: { left. exists no_forwarder_error.
       split; [by apply plugin_no_forwarder with o1
              | by apply plugin_no_forwarder with o2]. }
  destruct (to_boolean (normalizeQuery (prop o1 "query"))) eqn:Hq1.
  2: { left. exists missing_query_error.
       split; [by apply plugin_no_query with o1 |].
       apply plugin_no_query with o2; [done | done | by rewrite <- Hqq]. }
  assert (Hq2 : to_boolean (normalizeQuery (prop o2 "query")) = true)
    by by rewrite <- Hqq.
  right.
  destruct (plugin_forward_log normalizeQuery fwd ctx1 st1 o1 Hop1 Hty1 Hq1)
    as [rest1 Hlog1].
  destruct (plugin_forward_log normalizeQuery fwd ctx2 st2 o2 Hop2 Hty2 Hq2)
    as [rest2 Hlog2].
  eexists _, _, _, _, (spread o1), (spread o2), rest1, rest2.
  split; [exact Hlog1 |]. split; [exact Hlog2 |].
  split; [apply lookup_insert_eq |]. split; [apply lookup_insert_eq |].
  split; [by rewrite !lookup_insert_eq, Hqq |].
  intros k Hk. by rewrite !lookup_insert_ne.
Qed.

(** X7. For a subscription, a normal return means the result was
    supplied: a forwarder was given, it returned, and the last call of the
    dispatch is [useResult] with what it returned and the terminate flag
    set. *)
Theorem subscription_return_means_supplied forward ctx st o st' :
  st_heap st !! operation ctx = Some o ->
  prop o "type" = VStr "subscription" ->
  run_plugin forward ctx st = (Normal tt, st') ->
  exists fwd arg h r h2,
    forward = Some fwd /\
    fwd arg h = (Normal r, h2) /\
    (useResult ctx r true h2).1 = Normal tt /\
    st_calls st' =
      st_calls st ++ [CallForward arg h; CallUseResult r true h2].
Proof.
  intros Hop Hty Hrun.
  destruct forward as [fwd |].
  2: { by rewrite (plugin_no_forwarder normalizeQuery ctx st o Hop Hty)
         in Hrun. }
  destruct (to_boolean (normalizeQuery (prop o "query"))) eqn:Hq.
  2: { by rewrite (plugin_no_query normalizeQuery fwd ctx st o Hop Hty Hq)
         in Hrun. }
  rewrite (plugin_forward normalizeQuery fwd ctx st o Hop Hty Hq) in Hrun;
    cbn zeta in Hrun.
  destruct (fwd _ _) as [[r | e'] h2] eqn:Hcall; [| done].
  destruct (useResult ctx r true h2) as [u h3] eqn:Hres.
  injection Hrun as -> <-.
  eexists fwd, _, _, r, h2. repeat split; [exact Hcall | by rewrite Hres].
Qed.

(** X8. Dispatching an operation that is already a forwarded copy
    forwards it unchanged, provided normalising a normalised query gives the
    same query: the object handed to the forwarder has exactly the
    properties of the operation dispatched. *)
Theorem redispatch_forwards_same_operation fwd ctx st o :
  (forall q, normalizeQuery (normalizeQuery q) = normalizeQuery q) ->
  st_heap st !! operation ctx = Some (spread o) ->
  prop o "type" = VStr "subscription" ->
  to_boolean (normalizeQuery (prop o "query")) = true ->
  exists (l' : loc) (h1 : heap) (rest : list call),
    st_calls (run_plugin (Some fwd) ctx st).2 =
      st_calls st ++ CallForward (VRef l') h1 :: rest /\
    h1 !! l' = Some (spread o).
Proof.
  intros Hidem Hop Hty Hq.
  assert (Hty' : prop (spread o) "type" = VStr "subscription").
  { unfold prop in *. by rewrite lookup_insert_ne. }
  assert (Hquery : prop (spread o) "query" = normalizeQuery (prop o "query")).
  { unfold prop at 1. by rewrite lookup_insert_eq. }
  assert (Hq' : to_boolean (normalizeQuery (prop (spread o) "query")) = true)
    by by rewrite Hquery, Hidem.
  destruct (plugin_forward_log normalizeQuery fwd ctx st (spread o)
              Hop Hty' Hq') as [rest Hlog].
  eexists _, _, rest. split; [exact Hlog |].
  rewrite lookup_insert_eq, Hquery, Hidem. by rewrite insert_insert_eq.
Qed.

End HandlerExtras.

(** *** The further properties at sample inputs *)

Section HandlerExtraSamples.

#[local] Open Scope list_scope.

Import Sample ForwarderSample.

Abbreviation sample_run := (subscriptionsHandlerPlugin keep_strings).

Lemma forwarder_throw_skips_useResult_witness :
  (st_heap (initial subscription_op) !! operation ctx = Some subscription_op /\
   prop subscription_op "type" = VStr "subscription" /\
   to_boolean (keep_strings (prop subscription_op "query")) = true /\
   throwing_forwarder (VRef (copy_loc subscription_op))
     (forward_heap subscription_op) =
     (Throw (Foreign (VStr "socket closed")), forward_heap subscription_op)) /\
  sample_run (Some throwing_forwarder) ctx (initial subscription_op) =
    (Throw (Foreign (VStr "socket closed")),
     mkState (forward_heap subscription_op)
       [CallForward (VRef (copy_loc subscription_op))
          (forward_heap subscription_op)]).
Proof.
  split.
  - repeat split; vm_compute; reflexivity.
  - apply (forwarder_throw_skips_useResult keep_strings throwing_forwarder ctx
             (initial subscription_op) subscription_op);
      vm_compute; reflexivity.
Defined.

Lemma call_protocol_witness :
  st_heap (initial subscription_op) !! operation ctx = Some subscription_op /\
  exists new : list call,
    st_calls (sample_run (Some marking_forwarder) ctx
                (initial subscription_op)).2 =
      st_calls (initial subscription_op) ++ new /\
    (new = [] \/
     (exists fwd arg h e h2,
        Some marking_forwarder = Some fwd /\ fwd arg h = (Throw e, h2) /\
        new = [CallForward arg h]) \/
     (exists fwd arg h r h2,
        Some marking_forwarder = Some fwd /\ fwd arg h = (Normal r, h2) /\
        new = [CallForward arg h; CallUseResult r true h2])).
Proof.
  assert (H1 : st_heap (initial subscription_op) !! operation ctx =
               Some subscription_op) by (vm_compute; reflexivity).
  split; [exact H1 |].
  exact (call_protocol keep_strings (Some marking_forwarder) ctx
           (initial subscription_op) subscription_op H1).
Defined.

Lemma thrown_errors_classified_witness :
  (st_heap (initial subscription_op) !! operation ctx = Some subscription_op /\
   sample_run (Some marking_forwarder) (mkContext 1%positive throwing_useResult)
     (initial subscription_op) =
     (Throw (Foreign (VStr "already resolved")),
      (sample_run (Some marking_forwarder)
         (mkContext 1%positive throwing_useResult)
         (initial subscription_op)).2)) /\
  exists r h,
    (throwing_useResult r true h).1 = Throw (Foreign (VStr "already resolved")).
Proof.
  assert (H1 : st_heap (initial subscription_op) !! operation ctx =
               Some subscription_op) by (vm_compute; reflexivity).
  assert (H2 : sample_run (Some marking_forwarder)
                 (mkContext 1%positive throwing_useResult)
                 (initial subscription_op) =
               (Throw (Foreign (VStr "already resolved")),
                (sample_run (Some marking_forwarder)
                   (mkContext 1%positive throwing_useResult)
                   (initial subscription_op)).2))
    by (vm_compute; reflexivity).
  split; [by split |].
  destruct (thrown_errors_classified keep_strings (Some marking_forwarder)
              (mkContext 1%positive throwing_useResult)
              (initial subscription_op) subscription_op _ _ H1 H2)
    as [(Hnone & _) | [(_ & He & _) | [(fwd & arg & h & _ & _) | Hres]]].
  - discriminate Hnone.
  - discriminate He.
  - by exists (VRef 9%positive), h.
  - exact Hres.
Defined.

Lemma handler_allocates_one_object_witness :
  (st_heap (initial subscription_op) !! operation ctx = Some subscription_op /\
   prop subscription_op "type" = VStr "subscription" /\
   to_boolean (keep_strings (prop subscription_op "query")) = true) /\
  exists (l' : loc) (h1 : heap) (o' : obj) (rest : list call),
    st_calls (sample_run (Some marking_forwarder) ctx
                (initial subscription_op)).2 =
      st_calls (initial subscription_op) ++ CallForward (VRef l') h1 :: rest /\
    (l' ∉ dom (st_heap (initial subscription_op))) /\
    dom h1 = {[ l' ]} ∪ dom (st_heap (initial subscription_op)) /\
    (forall l0 : loc, l0 <> l' ->
       h1 !! l0 = st_heap (initial subscription_op) !! l0) /\
    h1 !! l' = Some o' /\
    dom o' = {[ "query" ]} ∪ dom subscription_op.
Proof.
  split.
  - repeat split; vm_compute; reflexivity.
  - apply (handler_allocates_one_object keep_strings marking_forwarder ctx
             (initial subscription_op) subscription_op);
      vm_compute; reflexivity.
Defined.

Lemma shallow_copy_shares_variables_witness :
  (st_heap with_variables !! operation ctx = Some subscription_op /\
   prop subscription_op "type" = VStr "subscription" /\
   to_boolean (keep_strings (prop subscription_op "query")) = true /\
   subscription_op !! "variables" = Some (VRef 7%positive) /\
   st_heap with_variables !! 7%positive = Some variables_obj /\
   7%positive <> operation ctx /\
   (forall l, useResult_preserves l (useResult ctx))) /\
  (st_heap (sample_run (Some (writing_forwarder "variables" "id" (VNum 2)))
              ctx with_variables).2 !! 7%positive =
     Some (<["id" := VNum 2]> variables_obj) /\
   st_heap (sample_run (Some (writing_forwarder "variables" "id" (VNum 2)))
              ctx with_variables).2 !! operation ctx =
     Some subscription_op).
Proof.
  assert (H1 : st_heap with_variables !! operation ctx = Some subscription_op)
    by (vm_compute; reflexivity).
  assert (H2 : prop subscription_op "type" = VStr "subscription")
    by (vm_compute; reflexivity).
  assert (H3 : to_boolean (keep_strings (prop subscription_op "query")) = true)
    by (vm_compute; reflexivity).
  assert (H4 : subscription_op !! "variables" = Some (VRef 7%positive))
    by (vm_compute; reflexivity).
  assert (H5 : st_heap with_variables !! 7%positive = Some variables_obj)
    by (vm_compute; reflexivity).
  assert (H6 : 7%positive <> operation ctx) by (vm_compute; discriminate).
  assert (H7 : forall l, useResult_preserves l (useResult ctx))
    by (intros l; apply silent_useResult_preserves).
  split; [by repeat split |].
  exact (shallow_copy_shares_variables keep_strings ctx with_variables
           subscription_op 7%positive variables_obj "id" (VNum 2)
           H1 H2 H3 H4 H5 H6 H7).
Defined.

Lemma path_depends_on_type_and_query_witness :
  (st_heap (initial subscription_op) !! operation ctx = Some subscription_op /\
   st_heap (initial tagged_op) !! operation ctx = Some tagged_op /\
   prop subscription_op "type" = prop tagged_op "type" /\
   prop subscription_op "query" = prop tagged_op "query" /\
   subscription_op <> tagged_op) /\
  exists (l1 l2 : loc) (h1 h2 : heap) (o1' o2' : obj)
         (rest1 rest2 : list call),
    st_calls (sample_run (Some marking_forwarder) ctx
                (initial subscription_op)).2 =
      CallForward (VRef l1) h1 :: rest1 /\
    st_calls (sample_run (Some marking_forwarder) ctx (initial tagged_op)).2 =
      CallForward (VRef l2) h2 :: rest2 /\
    h1 !! l1 = Some o1' /\ h2 !! l2 = Some o2' /\
    o1' !! "query" = o2' !! "query" /\
    forall k : string, k <> "query" ->
      o1' !! k = subscription_op !! k /\ o2' !! k = tagged_op !! k.
Proof.
  assert (H1 : st_heap (initial subscription_op) !! operation ctx =
               Some subscription_op) by (vm_compute; reflexivity).
  assert (H2 : st_heap (initial tagged_op) !! operation ctx = Some tagged_op)
    by (vm_compute; reflexivity).
  assert (H3 : prop subscription_op "type" = prop tagged_op "type")
    by (vm_compute; reflexivity).
  assert (H4 : prop subscription_op "query" = prop tagged_op "query")
    by (vm_compute; reflexivity).
  assert (H5 : subscription_op <> tagged_op).
  { intros Heq. apply (f_equal (fun m : obj => m !! "tags")) in Heq.
    vm_compute in Heq. discriminate. }
  split; [by repeat split |].
  destruct (path_depends_on_type_and_query keep_strings
              (Some marking_forwarder) ctx ctx _ _ _ _ H1 H2 H3 H4)
    as [[Hskip _] | [(e & He & _) | Hfw]].
  - exfalso. vm_compute in Hskip. discriminate.
  - exfalso. vm_compute in He. discriminate.
  - exact Hfw.
Defined.

Lemma subscription_return_means_supplied_witness :
  (st_heap (initial subscription_op) !! operation ctx = Some subscription_op /\
   prop subscription_op "type" = VStr "subscription" /\
   sample_run (Some marking_forwarder) ctx (initial subscription_op) =
     (Normal tt,
      (sample_run (Some marking_forwarder) ctx (initial subscription_op)).2)) /\
  exists fwd arg h r h2,
    Some marking_forwarder = Some fwd /\
    fwd arg h = (Normal r, h2) /\
    (useResult ctx r true h2).1 = Normal tt /\
    st_calls (sample_run (Some marking_forwarder) ctx
                (initial subscription_op)).2 =
      st_calls (initial subscription_op) ++
        [CallForward arg h; CallUseResult r true h2].
Proof.
  split.
  - repeat split; vm_compute; reflexivity.
  - apply (subscription_return_means_supplied keep_strings
             (Some marking_forwarder) ctx (initial subscription_op)
             subscription_op);
      vm_compute; reflexivity.
Defined.

Lemma redispatch_forwards_same_operation_witness :
  ((forall q, keep_strings (keep_strings q) = keep_strings q) /\
   st_heap (initial (copy subscription_op)) !! operation ctx =
     Some (copy subscription_op) /\
   prop subscription_op "type" = VStr "subscription" /\
   to_boolean (keep_strings (prop subscription_op "query")) = true) /\
  exists (l' : loc) (h1 : heap) (rest : list call),
    st_calls (sample_run (Some marking_forwarder) ctx
                (initial (copy subscription_op))).2 =
      st_calls (initial (copy subscription_op)) ++
        CallForward (VRef l') h1 :: rest /\
    h1 !! l' = Some (copy subscription_op).
Proof.
  assert (H0 : forall q, keep_strings (keep_strings q) = keep_strings q)
    by (by intros []).
  split.
  - split; [exact H0 |]. repeat split; vm_compute; reflexivity.
  - apply (redispatch_forwards_same_operation keep_strings marking_forwarder
             ctx (initial (copy subscription_op)) subscription_op H0);
      vm_compute; reflexivity.
Defined.

End HandlerExtraSamples.

(** * Properties of the guide's reducer *)

Module GuideFacts.

Import Guide.

#[local] Open Scope list_scope.

Section Reducer.

Context {Msg Err : Type}.

Implicit Types (old : option (list Msg)) (r : Response Msg Err)
  (rs : list (Response Msg Err)).

(** The message a response adds, if it adds one. *)
Abbreviation accepted :=
  (fun r : Response Msg Err =>
     if truthy (errors r) then None else newMessages <$> data r).

Lemma reduceMessages_accepted old r :
  reduceMessages old r = default [] old ++ option_list (accepted r).
Proof.
  unfold reduceMessages.
  destruct old as [l |], r as [[d |] [es |]]; cbn; by rewrite ?app_nil_r.
Qed.

(** Folding from any previous value. *)
Lemma fold_reduceMessages rs old :
  default [] (fold_left (fun old r => Some (reduceMessages old r)) rs old) =
    default [] old ++ omap accepted rs.
Proof.
  revert old. induction rs as [| r rs IH]; intros old.
  - cbn. by rewrite app_nil_r.
  - cbn [fold_left]. rewrite IH. cbn [default from_option id].
    rewrite reduceMessages_accepted, <- app_assoc. f_equal.
    cbn. by destruct (truthy (errors r)), (data r).
Qed.


(** X10. The reducer never drops or reorders what it has aggregated: the
    value after some responses is a prefix of the value after any further
    responses. *)
Theorem aggregate_only_grows rs more :
  default [] (aggregate rs) `prefix_of` default [] (aggregate (rs ++ more)).
Proof.
  unfold aggregate. rewrite fold_left_app, !fold_reduceMessages.
  cbn [default from_option app]. by apply prefix_app_r.
Qed.

End Reducer.

End GuideFacts.
